(** * SelenideJs: the retry engine [Wait] and the condition algebra

    A shallow embedding of [src/lib/wait.ts] and of the condition library
    built on it (the [condition] namespace), with the properties the
    specification states about them.

    Asynchronous functions are modelled by explicit state passing over an
    abstract environment [Env] (the browser, the page and the wall clock):
    an awaited call [fn(entity)] takes the environment in which it starts
    and gives back how the promise settled together with the environment
    in which control returns to the caller.  The [while (true)] loop of
    [Wait.query] is bounded by a number of iterations; a run that has not
    settled within the bound is reported as pending ([None]). *)

From Stdlib Require Import ZArith String Ascii List Bool Lia DecimalString.
Import ListNotations.

Local Open Scope string_scope.
Local Open Scope Z_scope.

(** ** JavaScript values used by the engine *)

Module Js.

(** The escapes ['\n'] and ['\t'] of the source's string literals. *)
Definition LF : string := String (ascii_of_nat 10) EmptyString.
Definition TAB : string := String (ascii_of_nat 9) EmptyString.

(** [`${n}`] for an integral number below 1e21 in magnitude (timeouts
    are whole milliseconds). *)
Definition Number_toString (n : Z) : string :=
  NilZero.string_of_int (Z.to_int n).

(** [`${a}`] for an array of strings: [a.join(",")]. *)
Definition Array_toString (a : list string) : string :=
  String.concat "," a.

(** The error classes that flow through the engine: the two of the
    repository, the built-in [Error], and the [TypeError] that reading a
    property of [null] or [undefined] raises. *)
Inductive ErrorClass : Set :=
| Error
| TimeoutError
| ConditionNotMatchedError
| TypeError.

(** What is thrown, and what a promise is rejected with.  Anything can
    be: an error object [new Class(message)], [null], [undefined] (as
    after [Promise.reject()]), or any other value, one that has no
    [message] (a string, a number, a plain object). *)
Inductive Thrown : Set :=
| new (class : ErrorClass) (message : string)
| null
| undefined
| other (value : string).

(** The class of an error object. *)
Definition class (error : Thrown) : option ErrorClass :=
  match error with
  | new class _ => Some class
  | _ => None
  end.

(** [`${error.message}`]: the message of an error object; the text
    [undefined] for a value without a message; nothing for [null] and
    [undefined], where reading the property throws. *)
Definition readMessage (error : Thrown) : option string :=
  match error with
  | new _ message => Some message
  | other _ => Some "undefined"
  | null | undefined => None
  end.

(** How an awaited promise settles. *)
Inductive Settled (R : Type) : Type :=
| Fulfilled (value : R)
| Rejected (error : Thrown).
Arguments Fulfilled {R} value.
Arguments Rejected {R} error.

Definition isFulfilled {R} (s : Settled R) : bool :=
  match s with Fulfilled _ => true | Rejected _ => false end.

(** [description || fallback]: the empty string is falsy, like
    [undefined]. *)
Definition or_else (description : option string) (fallback : string) : string :=
  match description with
  | Some (String c s) => String c s
  | Some EmptyString | None => fallback
  end.

(** Everything has a string form ([toString()], also what a template
    literal interpolates). *)
Class ToString (A : Type) := toString : A -> string.

End Js.
Import Js.

(** ** Queries, commands and conditions *)

(** An asynchronous function on an entity, run in the environment [Env]. *)
Definition Async (Env T R : Type) : Type := T -> Env -> Settled R * Env.

(** A JavaScript function value: what it does when called and its string
    form (its source text, unless [lambda] has replaced it). *)
Record Query (Env T R : Type) : Type := fn_
  { description : string;
    call : Async Env T R }.
Arguments fn_ {Env T R} description call.
Arguments description {Env T R} q.
Arguments call {Env T R} q entity env.

Definition Command (Env T : Type) : Type := Query Env T unit.
Definition Condition (Env T : Type) : Type := Query Env T unit.

#[export] Instance Query_ToString {Env T R} : ToString (Query Env T R) :=
  description.

(** Modelled from the spec: [Utils.lambda] ([helpers/utils] is not part of
    the sources at hand), which "wraps a function with an overridden
    human-readable description (used purely for diagnostics/logging; no
    behavioral effect)". *)
Definition lambda {Env T R} (description : string) (fn : Query Env T R)
  : Query Env T R :=
  fn_ description (call fn).

(** [new ConditionNotMatchedError()].  The class is declared in
    [errors/conditionDoesNotMatchError], outside the sources at hand: the
    message its constructor sets when it is called without an argument is
    a parameter of the development. *)
Class ConditionNotMatchedErrorClass : Set := defaultMessage : string.

Definition new_ConditionNotMatchedError `{ConditionNotMatchedErrorClass}
  : Thrown :=
  new ConditionNotMatchedError defaultMessage.

(** The message of the [TypeError] that reading [error.message] raises
    when [error] is [null] or [undefined].  Its wording is the JavaScript
    engine's, and a parameter of the development. *)
Class JsEngine : Set := cannotReadMessageOf : Thrown -> string.

(** The string form of an arrow function is its source text. *)
Definition arrow {Env T R} (source : string) (body : Async Env T R)
  : Query Env T R :=
  fn_ source body.

(** ** [namespace Condition] *)

Module Condition.
Section WithEnv.
Context {Env T : Type} `{ConditionNotMatchedErrorClass}.

(** [Condition.not]: the wrapped condition is awaited; its rejection is
    caught and makes the negation pass, its fulfilment makes the
    negation throw. *)
Definition not (condition : Condition Env T) (description : option string)
  : Condition Env T :=
  lambda (or_else description ("not " ++ toString condition))
    (arrow "async (entity) => { try { await condition(entity); } catch (error) { return; } throw new ConditionNotMatchedError(); }"
       (fun entity env =>
          match call condition entity env with
          | (Rejected error, env') => (Fulfilled tt, env')
          | (Fulfilled _, env') => (Rejected new_ConditionNotMatchedError, env')
          end)).

(** [Condition.asPredicate]: [condition(entity).then(res => true, err => false)]. *)
Definition asPredicate (condition : Condition Env T) : Async Env T bool :=
  fun entity env =>
    match call condition entity env with
    | (Fulfilled res, env') => (Fulfilled true, env')
    | (Rejected err, env') => (Fulfilled false, env')
    end.

End WithEnv.
End Condition.

(** ** [class Wait<T>] *)

(** What a run of the engine does, in order: the clock readings, the
    settled attempts and the calls of failure hooks (by registration
    index). *)
Inductive Event : Type :=
| EvNow (time : Z)
| EvCall (R : Type) (settled : Settled R)
| EvHook (index : nat).
Arguments EvCall {R} settled.


Definition hookIndex (ev : Event) : option nat :=
  match ev with
  | EvHook i => Some i
  | _ => None
  end.

(** The indices of the hooks called, in the order of the calls. *)
Fixpoint hookCalls (evs : list Event) : list nat :=
  match evs with
  | [] => []
  | ev :: evs' =>
      match hookIndex ev with
      | Some i => i :: hookCalls evs'
      | None => hookCalls evs'
      end
  end.

Module Wait.
Section WithEnv.
Context {Env : Type}.

(** [new Date().getTime()]: the wall clock of the environment, in ms. *)
Variable getTime : Env -> Z.

(** Modelled from the spec: [OnFailureHook] ([refactor/onFailureHook] is
    not part of the sources at hand), "[() => Promise<void> | void],
    invoked on final failure for diagnostics". *)
Definition OnFailureHook : Type := Env -> Settled unit * Env.

Context {T : Type} `{ToString T} `{JsEngine}.

(** The three [private readonly] fields set by the constructor. *)
Record Wait : Type := new
  { entity : T;
    timeout : Z;
    onFailureHooks : list OnFailureHook }.

(** The object, the environment it runs in and the events so far. *)
Record Machine : Type := machine
  { this : Wait;
    env : Env;
    trace : list Event }.

Definition log (ev : Event) (m : Machine) : Machine :=
  machine (this m) (env m) (trace m ++ [ev]).

Definition setEnv (e : Env) (m : Machine) : Machine :=
  machine (this m) e (trace m).

(** A promise observed after a bounded run: settled, or still pending. *)
Definition Promise (R : Type) : Type := option (Settled R) * Machine.

(** The message built in the [catch] block of [query]; [reason] is what
    [`${error.message}`] gives. *)
Definition timeoutMessage {R} (timeout : Z) (entity : T) (fn : Query Env T R)
    (reason : string) : string :=
  LF ++
  (TAB ++ "Timed out after " ++ Number_toString timeout
       ++ "ms, while waiting for:" ++ LF) ++
  (TAB ++ toString entity ++ "." ++ toString fn ++ LF) ++
  "Reason:" ++ LF ++
  (TAB ++ reason).

(** What the [throw] statement of the [catch] block throws: the argument
    of [new TimeoutError(...)] is evaluated first, and reading
    [error.message] of [null] or [undefined] throws a [TypeError] before
    any [TimeoutError] is built. *)
Definition thrownOnTimeout {R} (timeout : Z) (entity : T) (fn : Query Env T R)
    (error : Thrown) : Thrown :=
  match readMessage error with
  | Some reason => Js.new TimeoutError (timeoutMessage timeout entity fn reason)
  | None => Js.new TypeError (cannotReadMessageOf error)
  end.

(** The [while (true)] loop of [query], at most [fuel] iterations. *)
Fixpoint queryLoop {R} (fuel : nat) (fn : Query Env T R) (timeout : Z)
    (finishTime : Z) (m : Machine) : Promise R :=
  match fuel with
  | O => (None, m)
  | S fuel' =>
      let (settled, env') := call fn (entity (this m)) (env m) in
      let m1 := log (EvCall settled) (setEnv env' m) in
      match settled with
      | Fulfilled value => (Some (Fulfilled value), m1)
      | Rejected error =>
          let now := getTime (env m1) in
          let m2 := log (EvNow now) m1 in
          if now >? finishTime then
            (Some (Rejected (thrownOnTimeout timeout (entity (this m2)) fn error)),
             m2)
          else queryLoop fuel' fn timeout finishTime m2
      end
  end.

(** A parameter with the default [= this.timeout]. *)
Definition orDefault (m : Machine) (override : option Z) : Z :=
  match override with
  | Some t => t
  | None => timeout (this m)
  end.

(** [async query<R>(fn, timeout = this.timeout)]. *)
Definition query {R} (fuel : nat) (fn : Query Env T R) (timeout : option Z)
    (m : Machine) : Promise R :=
  let timeout := orDefault m timeout in
  let now := getTime (env m) in
  let finishTime := now + timeout in
  queryLoop fuel fn timeout finishTime (log (EvNow now) m).

(** [promise.then(onFulfilled, onRejected)] with handlers that return. *)
Definition then_ {A B} (p : Promise A) (onFulfilled : A -> B)
    (onRejected : Thrown -> B) : Promise B :=
  match p with
  | (Some (Fulfilled res), m) => (Some (Fulfilled (onFulfilled res)), m)
  | (Some (Rejected err), m) => (Some (Fulfilled (onRejected err)), m)
  | (None, m) => (None, m)
  end.

(** [await promise; rest]: a rejection leaves the [async] function. *)
Definition await {A B} (p : Promise A) (rest : A -> Machine -> Promise B)
  : Promise B :=
  match p with
  | (Some (Fulfilled res), m) => rest res m
  | (Some (Rejected err), m) => (Some (Rejected err), m)
  | (None, m) => (None, m)
  end.

(** [async until(fn, timeout = this.timeout)]. *)
Definition until (fuel : nat) (fn : Condition Env T) (timeout : option Z)
    (m : Machine) : Promise bool :=
  let timeout := orDefault m timeout in
  then_ (query fuel fn (Some timeout) m) (fun res => true) (fun err => false).

(** [async command(fn, timeout = this.timeout)]. *)
Definition command (fuel : nat) (fn : Command Env T) (timeout : option Z)
    (m : Machine) : Promise unit :=
  let timeout := orDefault m timeout in
  await (query fuel fn (Some timeout) m) (fun _ m' => (Some (Fulfilled tt), m')).

(** A call of one of the three public methods, with its optional per-call
    timeout. *)
Inductive Call : Type :=
| Until (fn : Condition Env T) (timeout : option Z)
| Command_ (fn : Command Env T) (timeout : option Z)
| Query_ (R : Type) (fn : Query Env T R) (timeout : option Z).

(** The machine after a call, observed after at most [fuel] iterations. *)
Definition perform (fuel : nat) (c : Call) (m : Machine) : Machine :=
  match c with
  | Until fn timeout => snd (until fuel fn timeout m)
  | Command_ fn timeout => snd (command fuel fn timeout m)
  | Query_ R fn timeout => snd (query fuel fn timeout m)
  end.

(** A sequence of calls on the same object, each with its own bound. *)
Fixpoint performAll (calls : list (nat * Call)) (m : Machine) : Machine :=
  match calls with
  | [] => m
  | (fuel, c) :: calls' => performAll calls' (perform fuel c m)
  end.

(** The same machine around an object built with other failure hooks. *)
Definition withHooks (hooks : list OnFailureHook) (m : Machine) : Machine :=
  machine (new (entity (this m)) (timeout (this m)) hooks) (env m) (trace m).

(** What it would mean for a run from [m] to [m'] to have called every
    registered hook once, in registration order. *)
Definition hooksCalledInOrder (m m' : Machine) : Prop :=
  exists evs,
    trace m' = (trace m ++ evs)%list /\
    hookCalls evs = seq 0 (length (onFailureHooks (this m))).

End WithEnv.
End Wait.

(** ** [namespace condition]: the condition library *)

Module condition.
Section WithEnv.
Context {Env : Type} `{ConditionNotMatchedErrorClass}.

(** [conditionFromAsyncQuery]: the description is the predicate's own
    string form. *)
Definition conditionFromAsyncQuery {E} (describedPredicate : Query Env E bool)
  : Condition Env E :=
  lambda (toString describedPredicate)
    (arrow "async (entity) => { if (!await describedPredicate(entity)) { throw new ConditionNotMatchedError(); } }"
       (fun entity env =>
          match call describedPredicate entity env with
          | (Rejected error, env') => (Rejected error, env')
          | (Fulfilled b, env') =>
              if negb b then (Rejected new_ConditionNotMatchedError, env')
              else (Fulfilled tt, env')
          end)).

(** [throwIfNot]: like [conditionFromAsyncQuery] but with a custom
    description. *)
Definition throwIfNot {E} (description : string) (predicate : Query Env E bool)
  : Condition Env E :=
  lambda description
    (arrow "async (entity) => { if (!await predicate(entity)) { throw new ConditionNotMatchedError(); } }"
       (fun entity env =>
          match call predicate entity env with
          | (Rejected error, env') => (Rejected error, env')
          | (Fulfilled b, env') =>
              if negb b then (Rejected new_ConditionNotMatchedError, env')
              else (Fulfilled tt, env')
          end)).

(** [throwIfNotActual]: an entity query compared through a predicate.
    The predicate is called synchronously inside the [async] arrow: what
    it throws rejects the condition as it is. *)
Definition throwIfNotActual {E A} `{ToString A} (query : Query Env E A)
    (predicate : A -> Settled bool) : Condition Env E :=
  arrow "async (entity) => { const actual = await query(entity); if (!predicate(actual)) { throw new Error(`actual ${query}: ${actual}`); } }"
    (fun entity env =>
       match call query entity env with
       | (Rejected error, env') => (Rejected error, env')
       | (Fulfilled actual, env') =>
           match predicate actual with
           | Rejected thrown => (Rejected thrown, env')
           | Fulfilled matched =>
               if negb matched then
                 (Rejected (Js.new Error
                              ("actual " ++ toString query ++ ": "
                               ++ toString actual)),
                  env')
               else (Fulfilled tt, env')
           end
       end).

End WithEnv.

(** [namespace element].  Its collaborators live outside the sources at
    hand and are parameters: the entity type [Element] with its method
    [getWebElement()], the driver's [WebElement] with its methods
    [isDisplayed()] and [isEnabled()], and the truthiness [!!value] of
    what [getWebElement()] resolves to. *)
Module element.
Section WithCollaborators.
Context {Env Element WebElement : Type}.
Context `{ConditionNotMatchedErrorClass}.
Variable getWebElement : Async Env Element WebElement.
Variable isDisplayed : Async Env WebElement bool.
Variable isEnabled_ : Async Env WebElement bool.
Variable truthy : WebElement -> bool.

(** [async (element) => (await element.getWebElement()).method()]: a
    rejected lookup leaves the arrow before the method is called. *)
Definition onWebElement {R} (method : Async Env WebElement R)
  : Async Env Element R :=
  fun element env =>
    match getWebElement element env with
    | (Rejected error, env') => (Rejected error, env')
    | (Fulfilled webElement, env') => method webElement env'
    end.

Definition isVisible : Condition Env Element :=
  throwIfNot "is visible"
    (arrow "async (element) => (await element.getWebElement()).isDisplayed()"
       (onWebElement isDisplayed)).

Definition isHidden : Condition Env Element :=
  Condition.not isVisible (Some "is hidden").

Definition isEnabled : Condition Env Element :=
  throwIfNot "is enabled"
    (arrow "async (element) => (await element.getWebElement()).isEnabled()"
       (onWebElement isEnabled_)).

Definition isDisabled : Condition Env Element :=
  Condition.not isEnabled (Some "is disabled").

Definition isPresent : Condition Env Element :=
  throwIfNot "is present"
    (arrow "async (element) => !!(await element.getWebElement())"
       (onWebElement
          (fun webElement env => (Fulfilled (negb (negb (truthy webElement))), env)))).

Definition isAbsent : Condition Env Element :=
  Condition.not isPresent (Some "is absent").

End WithCollaborators.
End element.

(** [namespace collection].  Its collaborators live outside the sources at
    hand and are parameters: the entity type [Collection], the query
    [query.collection.texts] and the predicate
    [predicate.equalsByContainsToArray]. *)
Module collection.
Section WithCollaborators.
Context {Env Collection : Type}.
Variable query_collection_texts : Query Env Collection (list string).
Variable predicate_equalsByContainsToArray
  : list string -> list string -> Settled bool.

#[local] Instance Array_ToString : ToString (list string) := Array_toString.

Definition hasTexts (texts : list string) : Condition Env Collection :=
  lambda ("has texts " ++ toString texts)
    (throwIfNotActual query_collection_texts
       (predicate_equalsByContainsToArray texts)).

Definition hasExactTexts (texts : list string) : Condition Env Collection :=
  lambda ("has exact texts " ++ toString texts)
    (throwIfNotActual query_collection_texts
       (predicate_equalsByContainsToArray texts)).

End WithCollaborators.
End collection.

End condition.

(** ** A page on which a button becomes visible after a delay

    The scenario of the integration tests: every attempt takes [step]
    milliseconds of the page's clock; the button is displayed from
    [shownAt] on (never, when [shownAt] is [None]). *)

Module Page.

Definition step : Z := 250.
Definition byDefault : Z := 1500.

#[local] Instance messages : ConditionNotMatchedErrorClass :=
  "condition not matched".

(** The wording of V8. *)
Definition engine : JsEngine :=
  fun error =>
    "Cannot read properties of "
    ++ match error with null => "null" | _ => "undefined" end
    ++ " (reading 'message')".
#[local] Existing Instance engine.

Record Page : Type := page
  { clock : Z;
    shownAt : option Z;
    snapshots : list nat }.

Definition getTime (p : Page) : Z := clock p.

(** An element is known by its selector. *)
Definition Element : Type := string.
#[global] Instance Element_ToString : ToString Element :=
  fun selector => "browser.element(" ++ selector ++ ")".

Definition isDisplayed : Query Page Element bool :=
  arrow "async (element) => (await element.getWebElement()).isDisplayed()"
    (fun _ p =>
       let p' := page (clock p + step) (shownAt p) (snapshots p) in
       (Fulfilled (match shownAt p with
                   | Some t => t <=? clock p'
                   | None => false
                   end), p')).

Definition isVisible : Condition Page Element :=
  condition.throwIfNot "is visible" isDisplayed.

Definition isHidden : Condition Page Element :=
  Condition.not isVisible (Some "is hidden").

(** A failure hook that records a snapshot under its number. *)
Definition snapshot (n : nat) : @Wait.OnFailureHook Page :=
  fun p => (Fulfilled tt, page (clock p) (shownAt p) (snapshots p ++ [n])).

Definition button : @Wait.Wait Page Element :=
  Wait.new "button" byDefault [snapshot 0%nat; snapshot 1%nat].

Definition start (shown : option Z) : @Wait.Machine Page Element :=
  Wait.machine button (page 0 shown []) [].

(** [query(isVisible, timeout)] on a button that is never shown. *)
Definition neverShown (timeout : Z) : Wait.Promise unit :=
  Wait.query getTime 10 isVisible (Some timeout) (start None).

(** A command whose promise is rejected without a reason, after a step
    of the clock. *)
Definition rejectsUndefined : Command Page Element :=
  arrow "(element) => driver.sleep(step).then(() => Promise.reject())"
    (fun _ p =>
       (Rejected undefined, page (clock p + step) (shownAt p) (snapshots p))).

(** The texts of the button, read in a step of the clock, and a
    predicate on texts. *)
Definition buttonTexts : Query Page Element (list string) :=
  arrow "async (element) => [await element.getText()]"
    (fun _ p =>
       (Fulfilled ["click me"],
        page (clock p + step) (shownAt p) (snapshots p))).

Definition sameTexts (expected actual : list string) : Settled bool :=
  Fulfilled (if list_eq_dec string_dec expected actual then true else false).

Definition hasTexts (texts : list string) : Condition Page Element :=
  condition.collection.hasTexts buttonTexts sameTexts texts.

End Page.

(** ** An environment whose clock stands still *)

Module Frozen.

#[local] Existing Instance Page.engine.

Definition getTime (_ : unit) : Z := 0.

#[global] Instance unit_ToString : ToString unit := fun _ => "nothing".

(** [async () => { throw new Error() }]. *)
Definition alwaysFails : Query unit unit unit :=
  arrow "async () => { throw new Error() }"
    (fun _ env => (Rejected (Js.new Error ""), env)).

Definition start : @Wait.Machine unit unit :=
  Wait.machine (Wait.new tt 0 []) tt [].

End Frozen.

(** ** The vocabulary of the properties *)

(** The attempts among the events of a run. *)
Definition isCall (ev : Event) : bool :=
  match ev with
  | EvCall _ => true
  | _ => false
  end.

Definition attempts (evs : list Event) : nat :=
  length (filter isCall evs).

(** The environment after [k] attempts of [fn] on [entity] in a row. *)
Fixpoint afterAttempts {Env T R} (fn : Query Env T R) (entity : T) (k : nat)
    (env : Env) : Env :=
  match k with
  | O => env
  | S k' => afterAttempts fn entity k' (snd (call fn entity env))
  end.

(** [s.includes(sub)]. *)
Definition Includes (s sub : string) : Prop :=
  exists pre post, s = pre ++ sub ++ post.

(** The events of the attempts that failed before the deadline: each is a
    rejected call followed by the clock reading of its [catch] block. *)
Definition retries (R : Type) (fails : list (Thrown * Z)) : list Event :=
  flat_map (fun f => [EvCall (@Rejected R (fst f)); EvNow (snd f)]) fails.

Section Endings.
Context {Env T : Type} `{ToString T} `{JsEngine}.

(** How a run of the loop ends: what it appends to the trace after the
    failed attempts, for each way the promise can be observed. *)
Definition ending {R} (fn : Query Env T R) (timeout finishTime : Z)
    (entity : T) (fuel : nat) (fails : list (Thrown * Z))
    (result : option (Settled R)) (tail : list Event) : Prop :=
  match result with
  | Some (Fulfilled value) => tail = [EvCall (Fulfilled value)]
  | Some (Rejected err) =>
      exists error now,
        tail = [EvCall (@Rejected R error); EvNow now] /\
        finishTime < now /\
        err = Wait.thrownOnTimeout timeout entity fn error
  | None => tail = [] /\ length fails = fuel
  end.

End Endings.

Section Runs.
Context {Env T R : Type}.
Variable getTime : Env -> Z.
Variable fn : Query Env T R.
Variable entity : T.

(** The first [k] attempts from [env] on were all retried: each call of
    [fn] on the entity was rejected, and the clock of the environment it
    left had not passed [finishTime]. *)
Fixpoint retried (finishTime : Z) (k : nat) (env : Env) : Prop :=
  match k with
  | O => True
  | S k' =>
      isFulfilled (fst (call fn entity env)) = false /\
      getTime (snd (call fn entity env)) <= finishTime /\
      retried finishTime k' (snd (call fn entity env))
  end.

(** The events of [k] retried attempts from [env] on: how each call of
    [fn] settled, and the clock of the environment it left. *)
Fixpoint retriedEvents (k : nat) (env : Env) : list Event :=
  match k with
  | O => []
  | S k' =>
      EvCall (fst (call fn entity env))
      :: EvNow (getTime (snd (call fn entity env)))
      :: retriedEvents k' (snd (call fn entity env))
  end.

End Runs.

(** * Properties *)

(** ** Strings that contain strings *)

Lemma append_assoc (a b c : string) : (a ++ b) ++ c = a ++ b ++ c.
Proof.
  induction a as [|ch a IH]; simpl; [reflexivity | now rewrite IH].
Qed.

Lemma append_empty_r (a : string) : a ++ "" = a.
Proof.
  induction a as [|ch a IH]; simpl; [reflexivity | now rewrite IH].
Qed.

Lemma Includes_refl (s : string) : Includes s s.
Proof. exists "", "". simpl. now rewrite append_empty_r. Qed.

Lemma Includes_prepend (p s sub : string) :
  Includes s sub -> Includes (p ++ s) sub.
Proof.
  intros (pre & post & ->). exists (p ++ pre), post.
  now rewrite append_assoc.
Qed.

Lemma Includes_append (s q sub : string) :
  Includes s sub -> Includes (s ++ q) sub.
Proof.
  intros (pre & post & ->). exists pre, (post ++ q).
  now rewrite !append_assoc.
Qed.

Create HintDb includes.
#[local] Hint Resolve Includes_refl Includes_prepend Includes_append : includes.

(** ** Events of a run *)


Lemma retries_no_hook R fails : hookCalls (retries R fails) = [].
Proof.
  induction fails as [|f fails IH]; simpl; auto.
Qed.

Lemma hookCalls_app evs evs' :
  hookCalls (evs ++ evs') = (hookCalls evs ++ hookCalls evs')%list.
Proof.
  induction evs as [|ev evs IH]; simpl; [reflexivity|].
  destruct (hookIndex ev); simpl; now rewrite IH.
Qed.


(** ** The retry loop *)

Section Engine.
Context {Env T : Type} `{ToString T} `{JsEngine}.
Variable getTime : Env -> Z.

Local Abbreviation Machine := (@Wait.Machine Env T).
Local Abbreviation queryLoop := (Wait.queryLoop getTime).
Local Abbreviation query := (Wait.query getTime).
Local Abbreviation until := (Wait.until getTime).
Local Abbreviation command := (Wait.command getTime).

(** The shape of every run of the loop: some attempts fail with the clock
    not past [finishTime], then the run ends as [ending] says; the object
    is left as it was. *)
Lemma queryLoop_shape {R} (fn : Query Env T R) (timeout finishTime : Z) :
  forall (fuel : nat) (m : Machine),
  exists fails tail,
    Forall (fun f => snd f <= finishTime) fails /\
    Wait.this (snd (queryLoop fuel fn timeout finishTime m)) = Wait.this m /\
    Wait.trace (snd (queryLoop fuel fn timeout finishTime m))
      = (Wait.trace m ++ retries R fails ++ tail)%list /\
    ending fn timeout finishTime (Wait.entity (Wait.this m)) fuel fails
      (fst (queryLoop fuel fn timeout finishTime m)) tail.
Proof.
  induction fuel as [|fuel IH]; intros m.
  - exists [], []. simpl. rewrite app_nil_r. repeat split; auto.
  - simpl.
    destruct (call fn (Wait.entity (Wait.this m)) (Wait.env m))
      as [[value | error] env'] eqn:Hcall.
    + exists [], [EvCall (Fulfilled value)]. simpl. repeat split; auto.
    + simpl.
      destruct (getTime env' >? finishTime) eqn:Hnow.
      * exists [], [EvCall (@Rejected R error); EvNow (getTime env')].
        simpl. split; [constructor|]. split; [reflexivity|].
        split; [now rewrite <- app_assoc|].
        exists error, (getTime env'). repeat split. lia.
      * set (m2 := Wait.log (EvNow (getTime env'))
                     (Wait.log (EvCall (@Rejected R error)) (Wait.setEnv env' m))).
        destruct (IH m2) as (fails & tail & Hle & Hthis & Htrace & Hend).
        exists ((error, getTime env') :: fails), tail.
        split; [constructor; [simpl; lia | exact Hle]|].
        split; [exact Hthis|].
        split.
        -- rewrite Htrace. unfold m2. simpl.
           now rewrite <- !app_assoc.
        -- unfold ending in *.
           destruct (fst (queryLoop fuel fn timeout finishTime m2))
             as [[value | err]|]; auto.
           destruct Hend as [-> <-]. auto.
Qed.

(** The same for [query]: one clock reading fixes the deadline, then the
    loop runs against it. *)
Lemma query_shape {R} (fn : Query Env T R) (timeout : option Z)
    (fuel : nat) (m : Machine) :
  let now := getTime (Wait.env m) in
  let finishTime := now + Wait.orDefault m timeout in
  exists fails tail,
    Forall (fun f => snd f <= finishTime) fails /\
    Wait.this (snd (query fuel fn timeout m)) = Wait.this m /\
    Wait.trace (snd (query fuel fn timeout m))
      = (Wait.trace m ++ EvNow now :: retries R fails ++ tail)%list /\
    ending fn (Wait.orDefault m timeout) finishTime (Wait.entity (Wait.this m))
      fuel fails (fst (query fuel fn timeout m)) tail.
Proof.
  intros now finishTime. unfold Wait.query. fold now. fold finishTime.
  destruct (queryLoop_shape fn (Wait.orDefault m timeout) finishTime fuel
              (Wait.log (EvNow now) m))
    as (fails & tail & Hle & Hthis & Htrace & Hend).
  exists fails, tail.
  split; [exact Hle|]. split; [exact Hthis|]. split; [|exact Hend].
  rewrite Htrace. simpl. now rewrite <- app_assoc.
Qed.



(** Every run of the loop, read off the calls of [fn] and the clock of
    the environment: [k] attempts are retried, then the run ends on the
    next attempt, or the bound on the iterations is reached. *)
Lemma queryLoop_run {R} (fn : Query Env T R) (timeout finishTime : Z) :
  forall (fuel : nat) (m : Machine),
  exists k,
    (k <= fuel)%nat /\
    retried getTime fn (Wait.entity (Wait.this m)) finishTime k (Wait.env m) /\
    match fst (queryLoop fuel fn timeout finishTime m) with
    | Some (Fulfilled value) =>
        call fn (Wait.entity (Wait.this m))
          (afterAttempts fn (Wait.entity (Wait.this m)) k (Wait.env m))
        = (Fulfilled value,
           Wait.env (snd (queryLoop fuel fn timeout finishTime m))) /\
        Wait.trace (snd (queryLoop fuel fn timeout finishTime m))
        = (Wait.trace m
           ++ retriedEvents getTime fn (Wait.entity (Wait.this m)) k (Wait.env m)
           ++ [EvCall (Fulfilled value)])%list
    | Some (Rejected err) =>
        exists error,
          call fn (Wait.entity (Wait.this m))
            (afterAttempts fn (Wait.entity (Wait.this m)) k (Wait.env m))
          = (Rejected error,
             Wait.env (snd (queryLoop fuel fn timeout finishTime m))) /\
          finishTime
          < getTime (Wait.env (snd (queryLoop fuel fn timeout finishTime m))) /\
          Wait.trace (snd (queryLoop fuel fn timeout finishTime m))
          = (Wait.trace m
             ++ retriedEvents getTime fn (Wait.entity (Wait.this m)) k
                  (Wait.env m)
             ++ [EvCall (@Rejected R error);
                 EvNow (getTime (Wait.env
                                   (snd (queryLoop fuel fn timeout finishTime
                                           m))))])%list /\
          err = Wait.thrownOnTimeout timeout (Wait.entity (Wait.this m)) fn error
    | None =>
        k = fuel /\
        Wait.env (snd (queryLoop fuel fn timeout finishTime m))
        = afterAttempts fn (Wait.entity (Wait.this m)) k (Wait.env m) /\
        Wait.trace (snd (queryLoop fuel fn timeout finishTime m))
        = (Wait.trace m
           ++ retriedEvents getTime fn (Wait.entity (Wait.this m)) k
                (Wait.env m))%list
    end.
Proof.
  induction fuel as [|fuel IH]; intros m.
  - exists 0%nat. simpl. rewrite app_nil_r. repeat split; auto.
  - simpl queryLoop.
    destruct (call fn (Wait.entity (Wait.this m)) (Wait.env m))
      as [[value | error] env'] eqn:Hcall.
    + exists 0%nat. simpl. rewrite Hcall.
      split; [lia|]. split; [exact I|]. split; reflexivity.
    + simpl. destruct (getTime env' >? finishTime) eqn:Hnow.
      * exists 0%nat. simpl. rewrite Hcall.
        split; [lia|]. split; [exact I|].
        exists error. split; [reflexivity|]. split; [lia|].
        split; [now rewrite <- app_assoc | reflexivity].
      * set (m2 := Wait.log (EvNow (getTime env'))
                     (Wait.log (EvCall (@Rejected R error)) (Wait.setEnv env' m))).
        destruct (IH m2) as (k & Hk & Hretried & Hrun).
        exists (S k). simpl. rewrite Hcall. simpl.
        split; [lia|].
        split; [split; [reflexivity | split; [lia | exact Hretried]]|].
        change (Wait.entity (Wait.this m2)) with (Wait.entity (Wait.this m))
          in Hrun.
        change (Wait.env m2) with env' in Hrun.
        change (Wait.trace m2)
          with ((Wait.trace m ++ [EvCall (@Rejected R error)])
                ++ [EvNow (getTime env')])%list in Hrun.
        destruct (fst (queryLoop fuel fn timeout finishTime m2))
          as [[value | err]|].
        -- destruct Hrun as [Hlast Htrace]. split; [exact Hlast|].
           rewrite Htrace. now rewrite <- !app_assoc.
        -- destruct Hrun as (last & Hlast & Hpast & Htrace & Herr).
           exists last. split; [exact Hlast|]. split; [exact Hpast|].
           split; [|exact Herr].
           rewrite Htrace. now rewrite <- !app_assoc.
        -- destruct Hrun as (-> & Henv & Htrace).
           split; [reflexivity|]. split; [exact Henv|].
           rewrite Htrace. now rewrite <- !app_assoc.
Qed.

(** C2: [query] reads the clock of the environment once, before the first
    attempt, and the deadline is that reading plus the timeout.  The run
    is then fixed by the calls of [fn] and the clock: [k] attempts are
    retried, each a call of [fn] that was rejected and left the clock at
    or before the deadline (equality included), and each followed by the
    next call of [fn]; [query] rejects only on a rejected call that leaves
    the clock strictly after the deadline, with the [TimeoutError] built
    around what [error.message] gives (with the [TypeError] of that
    reading when the error is [null] or [undefined]). *)
Theorem query_deadline_fixed_once_and_strict {R}
    (fn : Query Env T R) (timeout : option Z) (fuel : nat) (m : Machine) :
  let entity := Wait.entity (Wait.this m) in
  let now := getTime (Wait.env m) in
  let finishTime := now + Wait.orDefault m timeout in
  let finalEnv := Wait.env (snd (query fuel fn timeout m)) in
  exists k,
    (k <= fuel)%nat /\
    retried getTime fn entity finishTime k (Wait.env m) /\
    match fst (query fuel fn timeout m) with
    | Some (Fulfilled value) =>
        call fn entity (afterAttempts fn entity k (Wait.env m))
        = (Fulfilled value, finalEnv) /\
        Wait.trace (snd (query fuel fn timeout m))
        = (Wait.trace m
           ++ EvNow now
           :: retriedEvents getTime fn entity k (Wait.env m)
           ++ [EvCall (Fulfilled value)])%list
    | Some (Rejected err) =>
        exists error,
          call fn entity (afterAttempts fn entity k (Wait.env m))
          = (Rejected error, finalEnv) /\
          finishTime < getTime finalEnv /\
          Wait.trace (snd (query fuel fn timeout m))
          = (Wait.trace m
             ++ EvNow now
             :: retriedEvents getTime fn entity k (Wait.env m)
             ++ [EvCall (@Rejected R error); EvNow (getTime finalEnv)])%list /\
          match readMessage error with
          | Some reason =>
              err = Js.new TimeoutError
                      (Wait.timeoutMessage (Wait.orDefault m timeout) entity fn
                         reason)
          | None => err = Js.new TypeError (cannotReadMessageOf error)
          end
    | None =>
        k = fuel /\
        finalEnv = afterAttempts fn entity k (Wait.env m) /\
        Wait.trace (snd (query fuel fn timeout m))
        = (Wait.trace m
           ++ EvNow now
           :: retriedEvents getTime fn entity k (Wait.env m))%list
    end.
Proof.
  intros entity now finishTime finalEnv. subst finalEnv. unfold Wait.query.
  fold now. fold finishTime.
  destruct (queryLoop_run fn (Wait.orDefault m timeout) finishTime fuel
              (Wait.log (EvNow now) m))
    as (k & Hk & Hretried & Hrun).
  exists k. split; [exact Hk|]. split; [exact Hretried|].
  change (Wait.entity (Wait.this (Wait.log (EvNow now) m))) with entity in Hrun.
  change (Wait.env (Wait.log (EvNow now) m)) with (Wait.env m) in Hrun.
  change (Wait.trace (Wait.log (EvNow now) m))
    with (Wait.trace m ++ [EvNow now])%list in Hrun.
  destruct (fst (queryLoop fuel fn (Wait.orDefault m timeout) finishTime
                   (Wait.log (EvNow now) m)))
    as [[value | err]|].
  - destruct Hrun as [Hlast Htrace]. split; [exact Hlast|].
    rewrite Htrace. now rewrite <- app_assoc.
  - destruct Hrun as (error & Hlast & Hpast & Htrace & Herr).
    exists error. split; [exact Hlast|]. split; [exact Hpast|].
    split; [rewrite Htrace; now rewrite <- app_assoc|].
    unfold Wait.thrownOnTimeout in Herr.
    now destruct (readMessage error).
  - destruct Hrun as (Hfuel & Henv & Htrace).
    split; [exact Hfuel|]. split; [exact Henv|].
    rewrite Htrace. now rewrite <- app_assoc.
Qed.

Lemma query_default_timeout {R} (fn : Query Env T R) (timeout : option Z)
    (fuel : nat) (m : Machine) :
  query fuel fn (Some (Wait.orDefault m timeout)) m = query fuel fn timeout m.
Proof. reflexivity. Qed.

(** C3: [until] never rejects.  It is fulfilled with [true] exactly when
    the underlying [query] is fulfilled, with [false] exactly when the
    underlying [query] is rejected (a timeout included), and it is pending
    exactly as long as the [query] is; it leaves the machine as the
    [query] does. *)
Theorem until_never_rejects (fn : Condition Env T) (timeout : option Z)
    (fuel : nat) (m : Machine) :
  (forall err, fst (until fuel fn timeout m) <> Some (Rejected err)) /\
  (fst (until fuel fn timeout m) = Some (Fulfilled true)
   <-> exists res, fst (query fuel fn timeout m) = Some (Fulfilled res)) /\
  (fst (until fuel fn timeout m) = Some (Fulfilled false)
   <-> exists err, fst (query fuel fn timeout m) = Some (Rejected err)) /\
  (fst (until fuel fn timeout m) = None
   <-> fst (query fuel fn timeout m) = None) /\
  snd (until fuel fn timeout m) = snd (query fuel fn timeout m).
Proof.
  unfold Wait.until. rewrite query_default_timeout.
  destruct (query fuel fn timeout m) as [[[res | err]|] m']; simpl.
  - repeat split; try discriminate; eauto; intros []; discriminate.
  - repeat split; try discriminate; eauto; intros []; discriminate.
  - repeat split; try discriminate; intros []; discriminate.
Qed.

(** What [query] rejects with is what the [catch] block throws for the
    error of a call of [fn] on the entity. *)
Lemma query_rejection {R} (fn : Query Env T R) (timeout : option Z)
    (fuel : nat) (m : Machine) (err : Thrown) :
  fst (query fuel fn timeout m) = Some (Rejected err) ->
  exists k error,
    (k <= fuel)%nat /\
    retried getTime fn (Wait.entity (Wait.this m))
      (getTime (Wait.env m) + Wait.orDefault m timeout) k (Wait.env m) /\
    call fn (Wait.entity (Wait.this m))
      (afterAttempts fn (Wait.entity (Wait.this m)) k (Wait.env m))
    = (Rejected error, Wait.env (snd (query fuel fn timeout m))) /\
    err = Wait.thrownOnTimeout (Wait.orDefault m timeout)
            (Wait.entity (Wait.this m)) fn error.
Proof.
  unfold Wait.query. intros Hres.
  destruct (queryLoop_run fn (Wait.orDefault m timeout)
              (getTime (Wait.env m) + Wait.orDefault m timeout) fuel
              (Wait.log (EvNow (getTime (Wait.env m))) m))
    as (k & Hk & Hretried & Hrun).
  rewrite Hres in Hrun. destruct Hrun as (error & Hlast & _ & _ & Herr).
  exists k, error. auto.
Qed.

(** X19: as long as no call of the function is rejected with [null] or
    [undefined], a rejection of [query] is always the [TimeoutError]
    built in the [catch] block, whatever the classes of the errors of the
    attempts; [command] settles exactly as its [query] does, so it hands
    that [TimeoutError] to the caller and rejects with nothing else. *)
Theorem only_timeout_escapes_when_errors_have_messages {R}
    (fn : Query Env T R) (cmd : Command Env T)
    (timeout : option Z) (fuel : nat) (m : Machine) :
  (forall entity env error,
     fst (call fn entity env) = Rejected error -> readMessage error <> None) ->
  (forall entity env error,
     fst (call cmd entity env) = Rejected error -> readMessage error <> None) ->
  match fst (query fuel fn timeout m) with
  | Some (Rejected err) =>
      exists reason,
        err = Js.new TimeoutError
                (Wait.timeoutMessage (Wait.orDefault m timeout)
                   (Wait.entity (Wait.this m)) fn reason)
  | _ => True
  end /\
  match fst (command fuel cmd timeout m) with
  | Some (Rejected err) =>
      class err = Some TimeoutError /\
      fst (query fuel cmd timeout m) = Some (Rejected err)
  | Some (Fulfilled _) => fst (query fuel cmd timeout m) = Some (Fulfilled tt)
  | None => fst (query fuel cmd timeout m) = None
  end /\
  snd (command fuel cmd timeout m) = snd (query fuel cmd timeout m).
Proof.
  intros Hfn Hcmd. split.
  - destruct (fst (query fuel fn timeout m)) as [[value | err]|] eqn:Hres; auto.
    destruct (query_rejection fn timeout fuel m err Hres)
      as (k & error & _ & _ & Hlast & ->).
    unfold Wait.thrownOnTimeout.
    destruct (readMessage error) as [reason|] eqn:Hreason; [now exists reason|].
    exfalso. eapply (Hfn _ _ error); [now rewrite Hlast | exact Hreason].
  - pose proof (query_rejection cmd timeout fuel m) as Hrej.
    unfold Wait.command. rewrite query_default_timeout.
    destruct (query fuel cmd timeout m) as [[[[] | err]|] m']; simpl in *; auto.
    destruct (Hrej err eq_refl) as (k & error & _ & _ & Hlast & ->).
    unfold Wait.thrownOnTimeout.
    destruct (readMessage error) as [reason|] eqn:Hreason; [auto|].
    exfalso. eapply (Hcmd _ _ error); [now rewrite Hlast | exact Hreason].
Qed.

(** C5: when [query] fails with a [TimeoutError], its message contains
    the string form of the timeout of the call, the string form of the
    held entity, the string form of [fn] and the message of the error of
    the last attempt: the error that the call of [fn] on the entity was
    rejected with after the [k] retried attempts, the call that leaves
    the environment [query] leaves. *)
Theorem timeout_message_contents {R} (fn : Query Env T R)
    (timeout : option Z) (fuel : nat) (m : Machine) (text : string) :
  fst (query fuel fn timeout m) = Some (Rejected (Js.new TimeoutError text)) ->
  exists k error reason,
    (k <= fuel)%nat /\
    retried getTime fn (Wait.entity (Wait.this m))
      (getTime (Wait.env m) + Wait.orDefault m timeout) k (Wait.env m) /\
    call fn (Wait.entity (Wait.this m))
      (afterAttempts fn (Wait.entity (Wait.this m)) k (Wait.env m))
    = (Rejected error, Wait.env (snd (query fuel fn timeout m))) /\
    readMessage error = Some reason /\
    Includes text (Number_toString (Wait.orDefault m timeout)) /\
    Includes text (toString (Wait.entity (Wait.this m))) /\
    Includes text (toString fn) /\
    Includes text reason.
Proof.
  intros Hres.
  destruct (query_rejection fn timeout fuel m _ Hres)
    as (k & error & Hk & Hretried & Hlast & Herr).
  unfold Wait.thrownOnTimeout in Herr.
  destruct (readMessage error) as [reason|] eqn:Hreason; [|discriminate].
  injection Herr as ->.
  exists k, error, reason.
  split; [exact Hk|]. split; [exact Hretried|]. split; [exact Hlast|].
  split; [exact Hreason|].
  unfold Wait.timeoutMessage.
  repeat split; auto 10 with includes.
Qed.

(** The bound on the iterations is harmless when the clock moves: if every
    attempt takes at least a millisecond, the loop settles within
    [finishTime - now + 1] iterations. *)
Lemma queryLoop_settles {R} (fn : Query Env T R) (timeout finishTime : Z) :
  (forall entity env, getTime env + 1 <= getTime (snd (call fn entity env))) ->
  forall (fuel : nat) (m : Machine),
    (1 <= fuel)%nat ->
    finishTime - getTime (Wait.env m) < Z.of_nat fuel ->
    fst (queryLoop fuel fn timeout finishTime m) <> None.
Proof.
  intros Hclock.
  induction fuel as [|fuel IH]; intros m Hpos Hfuel; [lia|].
  simpl.
  pose proof (Hclock (Wait.entity (Wait.this m)) (Wait.env m)) as Hstep.
  destruct (call fn (Wait.entity (Wait.this m)) (Wait.env m))
    as [[value | error] env']; simpl in *; [discriminate|].
  destruct (getTime env' >? finishTime) eqn:Hnow; [discriminate|].
  apply IH; simpl; lia.
Qed.

(** X5: [query] settles whenever the clock moves: if every attempt takes
    at least a millisecond, the promise is fulfilled or rejected within
    as many iterations as the timeout has milliseconds, plus one. *)
Lemma query_settles {R} (fn : Query Env T R) (timeout : option Z)
    (fuel : nat) (m : Machine) :
  (forall entity env, getTime env + 1 <= getTime (snd (call fn entity env))) ->
  (1 <= fuel)%nat ->
  Wait.orDefault m timeout < Z.of_nat fuel ->
  fst (query fuel fn timeout m) <> None.
Proof.
  intros Hclock Hpos Hfuel. unfold Wait.query.
  apply queryLoop_settles; auto. simpl. lia.
Qed.

(** The loop neither reads nor calls the registered hooks: it runs the
    same around an object built with other hooks. *)
Lemma queryLoop_withHooks {R} (fn : Query Env T R) (timeout finishTime : Z)
    (hooks : list (@Wait.OnFailureHook Env)) :
  forall (fuel : nat) (m : Machine),
    queryLoop fuel fn timeout finishTime (Wait.withHooks hooks m)
    = (fst (queryLoop fuel fn timeout finishTime m),
       Wait.withHooks hooks (snd (queryLoop fuel fn timeout finishTime m))).
Proof.
  induction fuel as [|fuel IH]; intros m; [reflexivity|].
  simpl.
  destruct (call fn (Wait.entity (Wait.this m)) (Wait.env m))
    as [[value | error] env']; [reflexivity|].
  simpl. destruct (getTime env' >? finishTime); [reflexivity|].
  apply (IH (Wait.log (EvNow (getTime env'))
               (Wait.log (EvCall (@Rejected R error)) (Wait.setEnv env' m)))).
Qed.

(** C6, as the code has it: no run of [query], the one that ends in a
    [TimeoutError] included, calls a registered failure hook; the hooks
    are stored by the constructor only, and the result, the environment
    and the trace of [query] are the same whatever hooks are registered. *)
Theorem query_never_calls_hooks {R} (fn : Query Env T R) (timeout : option Z)
    (fuel : nat) (m : Machine) (hooks : list (@Wait.OnFailureHook Env)) :
  (exists evs,
     Wait.trace (snd (query fuel fn timeout m)) = (Wait.trace m ++ evs)%list /\
     hookCalls evs = []) /\
  query fuel fn timeout (Wait.withHooks hooks m)
  = (fst (query fuel fn timeout m),
     Wait.withHooks hooks (snd (query fuel fn timeout m))).
Proof.
  split.
  - destruct (query_shape fn timeout fuel m)
      as (fails & tail & _ & _ & Htrace & Hend).
    exists (EvNow (getTime (Wait.env m)) :: retries R fails ++ tail)%list.
    split; [exact Htrace|].
    simpl. rewrite hookCalls_app, retries_no_hook. simpl.
    unfold ending in Hend.
    destruct (fst (query fuel fn timeout m)) as [[value | err]|].
    + now subst tail.
    + destruct Hend as (error & now & -> & _). reflexivity.
    + destruct Hend as [-> _]. reflexivity.
  - unfold Wait.query.
    apply (queryLoop_withHooks fn _ _ hooks fuel
             (Wait.log (EvNow (getTime (Wait.env m))) m)).
Qed.

Lemma query_this {R} (fn : Query Env T R) (timeout : option Z) (fuel : nat)
    (m : Machine) :
  Wait.this (snd (query fuel fn timeout m)) = Wait.this m.
Proof.
  destruct (query_shape fn timeout fuel m) as (_ & _ & _ & Hthis & _).
  exact Hthis.
Qed.

Lemma perform_this (fuel : nat) (c : Wait.Call) (m : Machine) :
  Wait.this (Wait.perform getTime fuel c m) = Wait.this m.
Proof.
  destruct c as [fn timeout | fn timeout | R fn timeout]; simpl.
  - unfold Wait.until, Wait.then_.
    rewrite <- (query_this fn (Some (Wait.orDefault m timeout)) fuel m).
    now destruct (query fuel fn (Some (Wait.orDefault m timeout)) m)
      as [[[res | err]|] m'].
  - unfold Wait.command, Wait.await.
    rewrite <- (query_this fn (Some (Wait.orDefault m timeout)) fuel m).
    now destruct (query fuel fn (Some (Wait.orDefault m timeout)) m)
      as [[[res | err]|] m'].
  - apply query_this.
Qed.

(** C9: no sequence of calls of [until], [command] and [query], with or
    without a per-call timeout, changes the entity, the default timeout or
    the hooks the object was constructed with. *)
Theorem wait_fields_never_change (calls : list (nat * Wait.Call)) (m : Machine) :
  Wait.entity (Wait.this (Wait.performAll getTime calls m))
    = Wait.entity (Wait.this m) /\
  Wait.timeout (Wait.this (Wait.performAll getTime calls m))
    = Wait.timeout (Wait.this m) /\
  Wait.onFailureHooks (Wait.this (Wait.performAll getTime calls m))
    = Wait.onFailureHooks (Wait.this m).
Proof.
  assert (Hthis : Wait.this (Wait.performAll getTime calls m) = Wait.this m).
  { revert m. induction calls as [|[fuel c] calls IH]; intros m; simpl.
    - reflexivity.
    - rewrite IH. apply perform_this. }
  now rewrite Hthis.
Qed.

End Engine.

(** ** The condition algebra *)

Section Negation.
Context {Env T : Type} `{ConditionNotMatchedErrorClass}.

(** C7: [Condition.not C] passes exactly when [C] fails and fails, with a
    [ConditionNotMatchedError], exactly when [C] passes; it leaves the
    environment as [C] does; without a description it is described as
    [not ] followed by the string form of [C]. *)
Theorem not_negates (C : Condition Env T) (description : option string)
    (entity : T) (env : Env) :
  match fst (call C entity env) with
  | Fulfilled _ =>
      exists err,
        fst (call (Condition.not C description) entity env) = Rejected err /\
        class err = Some ConditionNotMatchedError
  | Rejected _ =>
      fst (call (Condition.not C description) entity env) = Fulfilled tt
  end /\
  snd (call (Condition.not C description) entity env) = snd (call C entity env) /\
  toString (Condition.not C None) = "not " ++ toString C.
Proof.
  unfold Condition.not. simpl.
  destruct (call C entity env) as [[[] | error] env']; simpl.
  - split; [|split; reflexivity].
    exists new_ConditionNotMatchedError. split; reflexivity.
  - repeat split.
Qed.

(** C8: [not (not C)] passes exactly when [C] passes and fails exactly
    when [C] fails, whatever the descriptions, and leaves the environment
    as [C] does. *)
Theorem not_not_equivalent (C : Condition Env T) (d1 d2 : option string)
    (entity : T) (env : Env) :
  isFulfilled (fst (call (Condition.not (Condition.not C d1) d2) entity env))
    = isFulfilled (fst (call C entity env)) /\
  match fst (call C entity env) with
  | Fulfilled _ =>
      fst (call (Condition.not (Condition.not C d1) d2) entity env) = Fulfilled tt
  | Rejected _ =>
      exists err,
        fst (call (Condition.not (Condition.not C d1) d2) entity env)
        = Rejected err
  end /\
  snd (call (Condition.not (Condition.not C d1) d2) entity env)
    = snd (call C entity env).
Proof.
  unfold Condition.not. simpl.
  destruct (call C entity env) as [[[] | error] env']; simpl.
  - repeat split.
  - split; [reflexivity|]. split; [|reflexivity].
    now exists new_ConditionNotMatchedError.
Qed.

End Negation.

(** ** The condition library *)

Section Collection.
Context {Env Collection : Type}.
Variable texts : Query Env Collection (list string).
Variable equalsByContainsToArray : list string -> list string -> Settled bool.

Local Abbreviation hasTexts :=
  (condition.collection.hasTexts texts equalsByContainsToArray).
Local Abbreviation hasExactTexts :=
  (condition.collection.hasExactTexts texts equalsByContainsToArray).

Lemma has_texts_descriptions_differ (s : string) :
  "has texts " ++ s <> "has exact texts " ++ s.
Proof. simpl. intros Heq. discriminate Heq. Qed.

(** C10: for every list of expected texts, [hasTexts] and [hasExactTexts]
    are the same function of the collection and the environment (the same
    query compared through the same predicate); they are the same
    function value up to the description, and their descriptions
    differ. *)
Theorem hasTexts_hasExactTexts_same_behaviour (ts : list string) :
  call (hasExactTexts ts) = call (hasTexts ts) /\
  (forall entity env,
     call (hasTexts ts) entity env
     = match call texts entity env with
       | (Rejected error, env') => (Rejected error, env')
       | (Fulfilled actual, env') =>
           match equalsByContainsToArray ts actual with
           | Fulfilled true => (Fulfilled tt, env')
           | Fulfilled false =>
               (Rejected (Js.new Error
                            ("actual " ++ toString texts ++ ": "
                             ++ Array_toString actual)), env')
           | Rejected thrown => (Rejected thrown, env')
           end
       end) /\
  hasExactTexts ts = lambda (toString (hasExactTexts ts)) (hasTexts ts) /\
  toString (hasTexts ts) = "has texts " ++ Array_toString ts /\
  toString (hasExactTexts ts) = "has exact texts " ++ Array_toString ts /\
  toString (hasTexts ts) <> toString (hasExactTexts ts).
Proof.
  split; [reflexivity|]. split.
  - intros entity env. simpl.
    destruct (call texts entity env) as [[actual | error] env']; [|reflexivity].
    now destruct (equalsByContainsToArray ts actual) as [[] | thrown].
  - repeat split. apply has_texts_descriptions_differ.
Qed.

End Collection.

(** ** The page scenario *)

Section Scenario.

#[local] Existing Instance Page.engine.

Local Abbreviation notMatched :=
  (EvCall (@Rejected unit (@new_ConditionNotMatchedError Page.messages))).

(** The button is shown after 500 ms: the second attempt passes, well
    before the default timeout. *)
Example visible_after_500 :
  let r := Wait.query Page.getTime 10 Page.isVisible None (Page.start (Some 500)) in
  fst r = Some (Fulfilled tt) /\
  Wait.trace (snd r) = [EvNow 0; notMatched; EvNow 250; EvCall (Fulfilled tt)].
Proof. split; reflexivity. Qed.

(** A negative timeout: one attempt is made all the same. *)
Example negative_timeout_one_attempt :
  Wait.trace (snd (Page.neverShown (-5))) = [EvNow 0; notMatched; EvNow 250] /\
  exists err,
    fst (Page.neverShown (-5)) = Some (Rejected err) /\
    class err = Some TimeoutError.
Proof. split; [reflexivity|]. eexists. split; reflexivity. Qed.

(** The first attempt fails exactly at the deadline (250 ms) and is
    retried; the second fails after it and times out. *)
Example failure_at_the_deadline_is_retried :
  Wait.trace (snd (Page.neverShown 250))
  = [EvNow 0; notMatched; EvNow 250; notMatched; EvNow 500].
Proof. reflexivity. Qed.

Example timeout_message_text :
  fst (Page.neverShown 250)
  = Some (Rejected (Js.new TimeoutError
                      (LF ++ TAB ++ "Timed out after 250ms, while waiting for:"
                       ++ LF
                       ++ TAB ++ "browser.element(button).is visible" ++ LF
                       ++ "Reason:" ++ LF
                       ++ TAB ++ "condition not matched"))).
Proof. reflexivity. Qed.

(** [until] turns the timeout into [false]; [isHidden] passes at once. *)
Example until_false_on_timeout :
  fst (Wait.until Page.getTime 10 Page.isVisible (Some 250) (Page.start None))
  = Some (Fulfilled false) /\
  fst (Wait.until Page.getTime 10 Page.isHidden (Some 250) (Page.start None))
  = Some (Fulfilled true).
Proof. split; reflexivity. Qed.

(** A clock that stands still: the loop never settles. *)
Example frozen_clock_is_pending (fuel : nat) :
  fst (Wait.query (H := fun _ : unit => "nothing") (fun _ : unit => 0) fuel
         (arrow "async () => { throw new Error() }"
            (fun (_ : unit) env => (@Rejected unit (Js.new Error ""), env)))
         (Some 0) (Wait.machine (Wait.new tt 0 []) tt []))
  = None.
Proof.
  unfold Wait.query. simpl Wait.orDefault. simpl Wait.env.
  generalize (Wait.log (EvNow 0) (Wait.machine (Wait.new tt 0 []) tt [])).
  induction fuel as [|fuel IH]; intros m; [reflexivity|].
  simpl. apply IH.
Qed.

(** C5, on the page: the run that times out after 250 ms. *)
Lemma timeout_message_contents_on_page :
  exists text,
    fst (Page.neverShown 250) = Some (Rejected (Js.new TimeoutError text)) /\
    exists k error reason,
      (k <= 10)%nat /\
      retried Page.getTime Page.isVisible "button" (0 + 250) k
        (Wait.env (Page.start None)) /\
      call Page.isVisible "button"
        (afterAttempts Page.isVisible "button" k (Wait.env (Page.start None)))
      = (Rejected error, Wait.env (snd (Page.neverShown 250))) /\
      readMessage error = Some reason /\
      Includes text (Number_toString 250) /\
      Includes text (toString ("button" : Page.Element)) /\
      Includes text (toString Page.isVisible) /\
      Includes text reason.
Proof.
  eexists. split.
  - reflexivity.
  - apply (timeout_message_contents Page.getTime Page.isVisible (Some 250)
             10%nat (Page.start None)).
    reflexivity.
Defined.

(** C6 as stated fails on the page: the run times out, the object holds
    two hooks, and neither has been called when the [TimeoutError]
    reaches the caller (no snapshot was taken either). *)
Lemma hooks_not_called_on_timeout :
  (exists err,
     fst (Page.neverShown 250) = Some (Rejected err) /\
     class err = Some TimeoutError) /\
  Wait.onFailureHooks (Wait.this (Page.start None))
    = [Page.snapshot 0; Page.snapshot 1] /\
  Page.snapshots (Wait.env (snd (Page.neverShown 250))) = [] /\
  ~ Wait.hooksCalledInOrder (Page.start None) (snd (Page.neverShown 250)).
Proof.
  split; [eexists; split; reflexivity|].
  split; [reflexivity|]. split; [reflexivity|].
  intros (evs & Htrace & Hcalls).
  change (Wait.trace (snd (Page.neverShown 250)))
    with [EvNow 0; notMatched; EvNow 250; notMatched; EvNow 500] in Htrace.
  simpl in Htrace. subst evs. discriminate Hcalls.
Qed.

End Scenario.

(** * Further properties of the engine *)

Lemma attempts_app (evs evs' : list Event) :
  attempts (evs ++ evs') = (attempts evs + attempts evs')%nat.
Proof.
  unfold attempts. now rewrite filter_app, length_app.
Qed.

Section EngineEffects.
Context {Env T : Type} `{ToString T} `{JsEngine}.
Variable getTime : Env -> Z.

Local Abbreviation Machine := (@Wait.Machine Env T).
Local Abbreviation queryLoop := (Wait.queryLoop getTime).
Local Abbreviation query := (Wait.query getTime).
Local Abbreviation until := (Wait.until getTime).

Lemma queryLoop_env {R} (fn : Query Env T R) (timeout finishTime : Z) :
  forall (fuel : nat) (m : Machine),
  exists k,
    (k <= fuel)%nat /\
    Wait.env (snd (queryLoop fuel fn timeout finishTime m))
    = afterAttempts fn (Wait.entity (Wait.this m)) k (Wait.env m) /\
    attempts (Wait.trace (snd (queryLoop fuel fn timeout finishTime m)))
    = (attempts (Wait.trace m) + k)%nat.
Proof.
  induction fuel as [|fuel IH]; intros m.
  - exists 0%nat. simpl. repeat split; lia.
  - simpl.
    destruct (call fn (Wait.entity (Wait.this m)) (Wait.env m))
      as [[value | error] env'] eqn:Hcall.
    + exists 1%nat. simpl. rewrite Hcall, attempts_app.
      unfold attempts. simpl. repeat split; lia.
    + simpl. destruct (getTime env' >? finishTime).
      * exists 1%nat. simpl. rewrite Hcall, !attempts_app.
        unfold attempts. simpl. repeat split; lia.
      * destruct (IH (Wait.log (EvNow (getTime env'))
                        (Wait.log (EvCall (@Rejected R error))
                           (Wait.setEnv env' m))))
          as (k & Hk & Henv & Hcount).
        exists (S k). simpl. rewrite Hcall. simpl.
        split; [lia|]. split; [exact Henv|].
        rewrite Hcount. simpl. rewrite !attempts_app.
        unfold attempts. simpl. lia.
Qed.

(** X1: The engine acts on the environment through the attempts only: the
    environment [query] leaves is the one the attempts of [fn] on the
    entity produce, one after the other, and there are as many attempts
    in the trace. *)
Theorem query_only_effect_is_attempts {R} (fn : Query Env T R)
    (timeout : option Z) (fuel : nat) (m : Machine) :
  exists k,
    (k <= fuel)%nat /\
    Wait.env (snd (query fuel fn timeout m))
    = afterAttempts fn (Wait.entity (Wait.this m)) k (Wait.env m) /\
    attempts (Wait.trace (snd (query fuel fn timeout m)))
    = (attempts (Wait.trace m) + k)%nat.
Proof.
  unfold Wait.query.
  destruct (queryLoop_env fn (Wait.orDefault m timeout)
              (getTime (Wait.env m) + Wait.orDefault m timeout) fuel
              (Wait.log (EvNow (getTime (Wait.env m))) m))
    as (k & Hk & Henv & Hcount).
  exists k. split; [exact Hk|]. split; [exact Henv|].
  rewrite Hcount. simpl. rewrite attempts_app.
  unfold attempts. simpl. lia.
Qed.

Lemma queryLoop_rejected_clock {R} (fn : Query Env T R) (timeout finishTime : Z) :
  forall (fuel : nat) (m : Machine) (err : Thrown),
    fst (queryLoop fuel fn timeout finishTime m) = Some (Rejected err) ->
    finishTime < getTime (Wait.env (snd (queryLoop fuel fn timeout finishTime m))).
Proof.
  induction fuel as [|fuel IH]; intros m err; simpl; [discriminate|].
  destruct (call fn (Wait.entity (Wait.this m)) (Wait.env m))
    as [[value | error] env']; simpl; [discriminate|].
  destruct (getTime env' >? finishTime) eqn:Hnow; simpl.
  - intros _. lia.
  - apply IH.
Qed.

(** X2: When [query] rejects, more than the timeout has elapsed on the clock
    of the environment since the call. *)
Theorem query_rejects_only_after_timeout {R} (fn : Query Env T R)
    (timeout : option Z) (fuel : nat) (m : Machine) (err : Thrown) :
  fst (query fuel fn timeout m) = Some (Rejected err) ->
  Wait.orDefault m timeout
  < getTime (Wait.env (snd (query fuel fn timeout m))) - getTime (Wait.env m).
Proof.
  unfold Wait.query. intros Hres.
  apply queryLoop_rejected_clock in Hres. simpl in Hres. lia.
Qed.

(** X3: [until] resolves to [false] only when more than the timeout has
    elapsed since the call. *)
Theorem until_false_only_after_timeout (fn : Condition Env T)
    (timeout : option Z) (fuel : nat) (m : Machine) :
  fst (until fuel fn timeout m) = Some (Fulfilled false) ->
  Wait.orDefault m timeout
  < getTime (Wait.env (snd (until fuel fn timeout m))) - getTime (Wait.env m).
Proof.
  unfold Wait.until, Wait.then_.
  pose proof (queryLoop_rejected_clock fn (Wait.orDefault m timeout)
                (getTime (Wait.env m) + Wait.orDefault m timeout) fuel
                (Wait.log (EvNow (getTime (Wait.env m))) m)) as Hclock.
  unfold Wait.query. simpl Wait.orDefault.
  destruct (queryLoop fuel fn (Wait.orDefault m timeout)
              (getTime (Wait.env m) + Wait.orDefault m timeout)
              (Wait.log (EvNow (getTime (Wait.env m))) m))
    as [[[res | err]|] m']; simpl in *; try discriminate.
  intros _. specialize (Hclock err eq_refl). lia.
Qed.

End EngineEffects.

Section EngineProgress.
Context {Env T : Type} `{ToString T} `{JsEngine}.
Variable getTime : Env -> Z.

Local Abbreviation Machine := (@Wait.Machine Env T).
Local Abbreviation queryLoop := (Wait.queryLoop getTime).
Local Abbreviation query := (Wait.query getTime).

Lemma queryLoop_attempts_bound {R} (fn : Query Env T R)
    (timeout finishTime d : Z) :
  0 < d ->
  (forall entity env, getTime env + d <= getTime (snd (call fn entity env))) ->
  forall (fuel : nat) (m : Machine),
  exists k,
    attempts (Wait.trace (snd (queryLoop fuel fn timeout finishTime m)))
    = (attempts (Wait.trace m) + k)%nat /\
    d * (Z.of_nat k - 1) <= Z.max 0 (finishTime - getTime (Wait.env m)).
Proof.
  intros Hd Hclock.
  induction fuel as [|fuel IH]; intros m.
  - exists 0%nat. simpl. split; lia.
  - simpl.
    pose proof (Hclock (Wait.entity (Wait.this m)) (Wait.env m)) as Hstep.
    destruct (call fn (Wait.entity (Wait.this m)) (Wait.env m))
      as [[value | error] env']; simpl in Hstep.
    + exists 1%nat. simpl. rewrite attempts_app. unfold attempts. simpl.
      split; lia.
    + simpl. destruct (getTime env' >? finishTime) eqn:Hnow.
      * exists 1%nat. simpl. rewrite !attempts_app. unfold attempts. simpl.
        split; lia.
      * destruct (IH (Wait.log (EvNow (getTime env'))
                        (Wait.log (EvCall (@Rejected R error))
                           (Wait.setEnv env' m))))
          as (k & Hcount & Hbound).
        exists (S k). split.
        -- rewrite Hcount. simpl. rewrite !attempts_app.
           unfold attempts. simpl. lia.
        -- rewrite Nat2Z.inj_succ. simpl in Hbound. nia.
Qed.

(** X4: When every attempt takes at least [d] milliseconds of the clock,
    [query] makes at most [timeout / d + 1] attempts (one, when the
    timeout is not positive): for the number [k] of attempts,
    [d * (k - 1) <= max 0 timeout]. *)
Theorem query_attempts_bound {R} (fn : Query Env T R) (timeout : option Z)
    (fuel : nat) (m : Machine) (d : Z) :
  0 < d ->
  (forall entity env, getTime env + d <= getTime (snd (call fn entity env))) ->
  exists k,
    attempts (Wait.trace (snd (query fuel fn timeout m)))
    = (attempts (Wait.trace m) + k)%nat /\
    d * (Z.of_nat k - 1) <= Z.max 0 (Wait.orDefault m timeout).
Proof.
  intros Hd Hclock. unfold Wait.query.
  destruct (queryLoop_attempts_bound fn (Wait.orDefault m timeout)
              (getTime (Wait.env m) + Wait.orDefault m timeout) d Hd Hclock
              fuel (Wait.log (EvNow (getTime (Wait.env m))) m))
    as (k & Hcount & Hbound).
  exists k. rewrite Hcount. simpl in *. rewrite attempts_app.
  unfold attempts. simpl. split; lia.
Qed.

Lemma queryLoop_spins {R} (fn : Query Env T R) (timeout finishTime : Z) :
  (forall entity env, isFulfilled (fst (call fn entity env)) = false) ->
  (forall env, getTime env <= finishTime) ->
  forall (fuel : nat) (m : Machine),
    fst (queryLoop fuel fn timeout finishTime m) = None /\
    attempts (Wait.trace (snd (queryLoop fuel fn timeout finishTime m)))
    = (attempts (Wait.trace m) + fuel)%nat.
Proof.
  intros Hfails Hclock.
  induction fuel as [|fuel IH]; intros m; simpl; [split; [reflexivity | lia]|].
  pose proof (Hfails (Wait.entity (Wait.this m)) (Wait.env m)) as Hfail.
  destruct (call fn (Wait.entity (Wait.this m)) (Wait.env m))
    as [[value | error] env']; simpl in Hfail; [discriminate|].
  simpl. pose proof (Hclock env') as Hle.
  destruct (getTime env' >? finishTime) eqn:Hnow; [lia|].
  destruct (IH (Wait.log (EvNow (getTime env'))
                  (Wait.log (EvCall (@Rejected R error)) (Wait.setEnv env' m))))
    as [Hres Hcount].
  split; [exact Hres|]. rewrite Hcount. simpl.
  rewrite !attempts_app. unfold attempts. simpl. lia.
Qed.

(** X6: There is no bound on the attempts other than the deadline: while
    [fn] keeps failing and the clock does not pass the deadline, [query]
    goes on attempting and never settles. *)
Theorem query_never_gives_up_before_deadline {R} (fn : Query Env T R)
    (timeout : option Z) (m : Machine) :
  (forall entity env, isFulfilled (fst (call fn entity env)) = false) ->
  (forall env, getTime env <= getTime (Wait.env m) + Wait.orDefault m timeout) ->
  forall fuel : nat,
    fst (query fuel fn timeout m) = None /\
    attempts (Wait.trace (snd (query fuel fn timeout m)))
    = (attempts (Wait.trace m) + fuel)%nat.
Proof.
  intros Hfails Hclock fuel. unfold Wait.query.
  destruct (queryLoop_spins fn (Wait.orDefault m timeout) _ Hfails Hclock fuel
              (Wait.log (EvNow (getTime (Wait.env m))) m))
    as [Hres Hcount].
  split; [exact Hres|]. rewrite Hcount. simpl. rewrite attempts_app.
  unfold attempts. simpl. lia.
Qed.

Lemma queryLoop_fulfils {R} (fn : Query Env T R) (timeout finishTime : Z)
    (Inv : Env -> Prop) (t : Z) :
  (forall entity env, Inv env -> Inv (snd (call fn entity env))) ->
  (forall entity env, Inv env ->
     getTime env + 1 <= getTime (snd (call fn entity env))) ->
  (forall entity env, Inv env ->
     isFulfilled (fst (call fn entity env))
     = (t <=? getTime (snd (call fn entity env)))) ->
  t <= finishTime ->
  forall (fuel : nat) (m : Machine),
    Inv (Wait.env m) ->
    (1 <= fuel)%nat ->
    t - getTime (Wait.env m) < Z.of_nat fuel ->
    exists value,
      fst (queryLoop fuel fn timeout finishTime m) = Some (Fulfilled value).
Proof.
  intros Hinv Hclock Hwhen Ht.
  induction fuel as [|fuel IH]; intros m Hm Hpos Hfuel; [lia|].
  simpl.
  pose proof (Hinv (Wait.entity (Wait.this m)) _ Hm) as Hm'.
  pose proof (Hclock (Wait.entity (Wait.this m)) _ Hm) as Hstep.
  pose proof (Hwhen (Wait.entity (Wait.this m)) _ Hm) as Hok.
  destruct (call fn (Wait.entity (Wait.this m)) (Wait.env m))
    as [[value | error] env']; simpl in *.
  - now exists value.
  - symmetry in Hok. apply Z.leb_gt in Hok.
    destruct (getTime env' >? finishTime) eqn:Hnow; [lia|].
    apply IH; simpl; [exact Hm' | lia | lia].
Qed.

(** X7: No timeout while the condition can still come true: if [fn] passes as
    soon as the clock has reached [t], [t] is not after the deadline and
    every attempt moves the clock, then [query] is fulfilled.  [Inv] is
    what the attempts keep true of the environment. *)
Theorem query_fulfils_when_condition_holds_by_deadline {R}
    (fn : Query Env T R) (timeout : option Z) (fuel : nat) (m : Machine)
    (Inv : Env -> Prop) (t : Z) :
  Inv (Wait.env m) ->
  (forall entity env, Inv env -> Inv (snd (call fn entity env))) ->
  (forall entity env, Inv env ->
     getTime env + 1 <= getTime (snd (call fn entity env))) ->
  (forall entity env, Inv env ->
     isFulfilled (fst (call fn entity env))
     = (t <=? getTime (snd (call fn entity env)))) ->
  t <= getTime (Wait.env m) + Wait.orDefault m timeout ->
  (1 <= fuel)%nat ->
  t - getTime (Wait.env m) < Z.of_nat fuel ->
  exists value, fst (query fuel fn timeout m) = Some (Fulfilled value).
Proof.
  intros Hm Hinv Hclock Hwhen Ht Hpos Hfuel. unfold Wait.query.
  apply (queryLoop_fulfils fn _ _ Inv t Hinv Hclock Hwhen Ht); auto.
Qed.

Lemma queryLoop_ext {R} (fn fn' : Query Env T R) (timeout finishTime : Z) :
  (forall entity env, call fn entity env = call fn' entity env) ->
  forall (fuel : nat) (m : Machine),
    snd (queryLoop fuel fn timeout finishTime m)
    = snd (queryLoop fuel fn' timeout finishTime m) /\
    match fst (queryLoop fuel fn timeout finishTime m),
          fst (queryLoop fuel fn' timeout finishTime m) with
    | Some (Fulfilled value), Some (Fulfilled value') => value = value'
    | Some (Rejected err), Some (Rejected err') => class err = class err'
    | None, None => True
    | _, _ => False
    end.
Proof.
  intros Hext.
  induction fuel as [|fuel IH]; intros m; simpl; [split; auto|].
  rewrite <- Hext.
  destruct (call fn (Wait.entity (Wait.this m)) (Wait.env m))
    as [[value | error] env']; simpl; [split; auto|].
  destruct (getTime env' >? finishTime); simpl; [|apply IH].
  split; [reflexivity|].
  unfold Wait.thrownOnTimeout. now destruct (readMessage error).
Qed.

(** X8: The string form of [fn] reaches nothing but the message of the
    timeout: two functions that behave the same make [query] leave the
    same machine and settle the same way, with the same value or with a
    rejection of the same class. *)
Theorem query_depends_on_behaviour_only {R} (fn fn' : Query Env T R)
    (timeout : option Z) (fuel : nat) (m : Machine) :
  (forall entity env, call fn entity env = call fn' entity env) ->
  snd (query fuel fn timeout m) = snd (query fuel fn' timeout m) /\
  match fst (query fuel fn timeout m), fst (query fuel fn' timeout m) with
  | Some (Fulfilled value), Some (Fulfilled value') => value = value'
  | Some (Rejected err), Some (Rejected err') => class err = class err'
  | None, None => True
  | _, _ => False
  end.
Proof.
  intros Hext. unfold Wait.query.
  apply (queryLoop_ext fn fn' _ _ Hext).
Qed.

End EngineProgress.

(** * Further properties of the condition algebra *)

Section Predicates.
Context {Env T : Type} `{ConditionNotMatchedErrorClass}.

(** X9: [asPredicate] never rejects; the predicate of a negation is the
    negated predicate of the condition, and the predicate of a double
    negation is the predicate of the condition. *)
Theorem asPredicate_of_negation (C : Condition Env T) (d d' : option string)
    (entity : T) (env : Env) :
  (exists b, fst (Condition.asPredicate C entity env) = Fulfilled b) /\
  Condition.asPredicate (Condition.not C d) entity env
  = (match fst (Condition.asPredicate C entity env) with
     | Fulfilled b => Fulfilled (negb b)
     | Rejected err => Rejected err
     end,
     snd (Condition.asPredicate C entity env)) /\
  Condition.asPredicate (Condition.not (Condition.not C d) d') entity env
  = Condition.asPredicate C entity env.
Proof.
  unfold Condition.asPredicate, Condition.not. simpl.
  destruct (call C entity env) as [[[] | error] env']; simpl.
  - split; [now exists true|]. split; reflexivity.
  - split; [now exists false|]. split; reflexivity.
Qed.

(** X10: From a predicate to a condition and back: the predicate of
    [throwIfNot description predicate] answers as [predicate] does, and
    answers [false] where [predicate] is rejected.  From a condition to a
    predicate and back: [throwIfNot] of the predicate of a condition is
    the double negation of the condition. *)
Theorem throwIfNot_asPredicate_round_trips (description source : string)
    (predicate : Query Env T bool) (C : Condition Env T)
    (d d' : option string) (entity : T) (env : Env) :
  Condition.asPredicate (condition.throwIfNot description predicate) entity env
  = (match fst (call predicate entity env) with
     | Fulfilled b => Fulfilled b
     | Rejected _ => Fulfilled false
     end,
     snd (call predicate entity env)) /\
  call (condition.throwIfNot description
          (arrow source (Condition.asPredicate C))) entity env
  = call (Condition.not (Condition.not C d) d') entity env.
Proof.
  unfold Condition.asPredicate, condition.throwIfNot, Condition.not. simpl.
  split.
  - destruct (call predicate entity env) as [[[] | error] env']; reflexivity.
  - destruct (call C entity env) as [[[] | error] env']; reflexivity.
Qed.

(** X11: What [throwIfNot] and [conditionFromAsyncQuery] make of the answer of
    the predicate: [true] passes, [false] throws a
    [ConditionNotMatchedError], and a rejection of the predicate itself is
    handed on as it is; the two differ in the description only, which
    [conditionFromAsyncQuery] takes from the predicate. *)
Theorem throwIfNot_outcomes (description : string)
    (predicate : Query Env T bool) (entity : T) (env : Env) :
  call (condition.throwIfNot description predicate) entity env
  = (match fst (call predicate entity env) with
     | Fulfilled true => Fulfilled tt
     | Fulfilled false => Rejected new_ConditionNotMatchedError
     | Rejected error => Rejected error
     end,
     snd (call predicate entity env)) /\
  call (condition.conditionFromAsyncQuery predicate) entity env
  = call (condition.throwIfNot description predicate) entity env /\
  toString (condition.throwIfNot description predicate) = description /\
  toString (condition.conditionFromAsyncQuery predicate) = toString predicate.
Proof.
  unfold condition.throwIfNot, condition.conditionFromAsyncQuery. simpl.
  split; [|repeat split].
  destruct (call predicate entity env) as [[[] | error] env']; reflexivity.
Qed.

(** X14: A double negation forgets why the condition failed: where [C] is
    rejected, with whatever error, [not (not C)] is rejected with the bare
    [ConditionNotMatchedError]. *)
Theorem not_not_forgets_the_error (C : Condition Env T) (d d' : option string)
    (entity : T) (env : Env) :
  match fst (call C entity env) with
  | Rejected _ =>
      fst (call (Condition.not (Condition.not C d) d') entity env)
      = Rejected new_ConditionNotMatchedError
  | Fulfilled _ =>
      fst (call (Condition.not (Condition.not C d) d') entity env)
      = Fulfilled tt
  end.
Proof.
  unfold Condition.not. simpl.
  destruct (call C entity env) as [[[] | error] env']; reflexivity.
Qed.

(** X15: A triple negation is the negation: the two settle alike in every
    environment and leave the same environment. *)
Theorem not_not_not (C : Condition Env T) (d1 d2 d3 d : option string)
    (entity : T) (env : Env) :
  call (Condition.not (Condition.not (Condition.not C d1) d2) d3) entity env
  = call (Condition.not C d) entity env.
Proof.
  unfold Condition.not. simpl.
  destruct (call C entity env) as [[[] | error] env']; reflexivity.
Qed.

End Predicates.

(** * Further properties of the condition library *)

Section ElementConditions.
Context {Env Element WebElement : Type}.
Context `{ConditionNotMatchedErrorClass}.
Variable getWebElement : Async Env Element WebElement.
Variable isDisplayed isEnabled : Async Env WebElement bool.
Variable truthy : WebElement -> bool.

Local Abbreviation isHidden :=
  (condition.element.isHidden getWebElement isDisplayed).
Local Abbreviation isDisabled :=
  (condition.element.isDisabled getWebElement isEnabled).
Local Abbreviation isPresent :=
  (condition.element.isPresent getWebElement truthy).
Local Abbreviation isAbsent :=
  (condition.element.isAbsent getWebElement truthy).

(** What the negation of a condition on the web element comes to: it
    throws only when the lookup succeeds and the method answers [true];
    it passes when the method answers [false], and also when the lookup
    or the method is rejected. *)
Lemma not_onWebElement (description source : string) (d : option string)
    (method : Async Env WebElement bool) (element : Element) (env : Env) :
  call (Condition.not
          (condition.throwIfNot description
             (arrow source (condition.element.onWebElement getWebElement method)))
          d) element env
  = match getWebElement element env with
    | (Rejected _, env') => (Fulfilled tt, env')
    | (Fulfilled webElement, env') =>
        match method webElement env' with
        | (Fulfilled true, env'') => (Rejected new_ConditionNotMatchedError, env'')
        | (Fulfilled false, env'') => (Fulfilled tt, env'')
        | (Rejected _, env'') => (Fulfilled tt, env'')
        end
    end.
Proof.
  unfold Condition.not, condition.throwIfNot, condition.element.onWebElement.
  simpl.
  destruct (getWebElement element env) as [[webElement | error] env'];
    [|reflexivity].
  destruct (method webElement env') as [[[] | error] env'']; reflexivity.
Qed.

(** X16: [isHidden] and [isDisabled] pass not only for an element that is
    displayed, or enabled, no more: they also pass when the element
    cannot be found and when the driver's call is rejected; they throw
    only for an element that is found and is displayed, or enabled.  They
    are described as [is hidden] and [is disabled]. *)
Theorem isHidden_isDisabled_outcomes (element : Element) (env : Env) :
  call isHidden element env
  = match getWebElement element env with
    | (Rejected _, env') => (Fulfilled tt, env')
    | (Fulfilled webElement, env') =>
        match isDisplayed webElement env' with
        | (Fulfilled true, env'') => (Rejected new_ConditionNotMatchedError, env'')
        | (Fulfilled false, env'') => (Fulfilled tt, env'')
        | (Rejected _, env'') => (Fulfilled tt, env'')
        end
    end /\
  call isDisabled element env
  = match getWebElement element env with
    | (Rejected _, env') => (Fulfilled tt, env')
    | (Fulfilled webElement, env') =>
        match isEnabled webElement env' with
        | (Fulfilled true, env'') => (Rejected new_ConditionNotMatchedError, env'')
        | (Fulfilled false, env'') => (Fulfilled tt, env'')
        | (Rejected _, env'') => (Fulfilled tt, env'')
        end
    end /\
  toString isHidden = "is hidden" /\
  toString isDisabled = "is disabled".
Proof.
  split; [apply not_onWebElement|].
  split; [apply not_onWebElement|].
  split; reflexivity.
Qed.

(** X17: [isPresent] hands a failed lookup on as it is and passes for what the
    lookup finds (when that is truthy, as every object is); [isAbsent]
    passes exactly when the lookup is rejected or finds a falsy value,
    and both leave the environment as the lookup does. *)
Theorem isPresent_isAbsent_outcomes (element : Element) (env : Env) :
  call isPresent element env
  = (match fst (getWebElement element env) with
     | Rejected error => Rejected error
     | Fulfilled webElement =>
         if truthy webElement then Fulfilled tt
         else Rejected new_ConditionNotMatchedError
     end,
     snd (getWebElement element env)) /\
  call isAbsent element env
  = (match fst (getWebElement element env) with
     | Rejected _ => Fulfilled tt
     | Fulfilled webElement =>
         if truthy webElement then Rejected new_ConditionNotMatchedError
         else Fulfilled tt
     end,
     snd (getWebElement element env)).
Proof.
  unfold condition.element.isAbsent, condition.element.isPresent,
    Condition.not, condition.throwIfNot, condition.element.onWebElement.
  simpl.
  destruct (getWebElement element env) as [[webElement | error] env'];
    simpl; [|split; reflexivity].
  destruct (truthy webElement); split; reflexivity.
Qed.

End ElementConditions.

(** * The further properties on the page *)

Section PageRuns.

#[local] Existing Instance Page.engine.

Lemma isVisible_takes_a_step (element : Page.Element) (p : Page.Page) :
  Page.getTime (snd (call Page.isVisible element p)) = Page.getTime p + 250.
Proof.
  destruct p as [clock [shown|] snapshots]; simpl; [|reflexivity].
  now destruct (shown <=? clock + Page.step).
Qed.

Lemma isVisible_keeps_shownAt (element : Page.Element) (p : Page.Page) :
  Page.shownAt (snd (call Page.isVisible element p)) = Page.shownAt p.
Proof.
  destruct p as [clock [shown|] snapshots]; simpl; [|reflexivity].
  now destruct (shown <=? clock + Page.step).
Qed.

Lemma isVisible_when_shown (element : Page.Element) (p : Page.Page) (t : Z) :
  Page.shownAt p = Some t ->
  isFulfilled (fst (call Page.isVisible element p))
  = (t <=? Page.getTime p + 250).
Proof.
  destruct p as [clock shown snapshots]. simpl. intros ->. simpl.
  unfold Page.step. now destruct (t <=? clock + 250).
Qed.

(** The run that times out after 250 ms ends with the clock at 500. *)
Lemma query_rejects_only_after_timeout_on_page :
  exists err,
    fst (Page.neverShown 250) = Some (Rejected err) /\
    250 < Page.getTime (Wait.env (snd (Page.neverShown 250)))
          - Page.getTime (Wait.env (Page.start None)).
Proof.
  eexists. split.
  - reflexivity.
  - eapply (query_rejects_only_after_timeout Page.getTime Page.isVisible
              (Some 250) 10%nat (Page.start None)).
    reflexivity.
Defined.

Lemma until_false_only_after_timeout_on_page :
  250 < Page.getTime
          (Wait.env (snd (Wait.until Page.getTime 10 Page.isVisible (Some 250)
                            (Page.start None))))
        - Page.getTime (Wait.env (Page.start None)).
Proof.
  apply (until_false_only_after_timeout Page.getTime Page.isVisible
           (Some 250) 10%nat (Page.start None)).
  reflexivity.
Defined.

(** With the default timeout of 1500 ms and attempts of 250 ms, at most
    seven attempts. *)
Lemma query_attempts_bound_on_page :
  exists k,
    attempts (Wait.trace (snd (Wait.query Page.getTime 10 Page.isVisible None
                                 (Page.start None))))
    = (attempts (Wait.trace (Page.start None)) + k)%nat /\
    250 * (Z.of_nat k - 1) <= Z.max 0 1500.
Proof.
  apply (query_attempts_bound Page.getTime Page.isVisible None 10%nat
           (Page.start None) 250).
  - lia.
  - intros element p. rewrite isVisible_takes_a_step. lia.
Defined.

Lemma query_settles_on_page :
  fst (Wait.query Page.getTime 10 Page.isVisible (Some 5) (Page.start None))
  <> None.
Proof.
  apply (query_settles Page.getTime Page.isVisible (Some 5) 10%nat
           (Page.start None)).
  - intros element p. rewrite isVisible_takes_a_step. lia.
  - lia.
  - simpl. lia.
Defined.

(** A clock that stands still and a function that always fails: seven
    iterations, seven attempts, nothing settled. *)
Lemma query_never_gives_up_on_a_frozen_clock :
  fst (Wait.query Frozen.getTime 7 Frozen.alwaysFails (Some 0) Frozen.start)
  = None /\
  attempts (Wait.trace (snd (Wait.query Frozen.getTime 7 Frozen.alwaysFails
                               (Some 0) Frozen.start)))
  = (attempts (Wait.trace Frozen.start) + 7)%nat.
Proof.
  apply (query_never_gives_up_before_deadline Frozen.getTime
           Frozen.alwaysFails (Some 0) Frozen.start).
  - intros entity env. reflexivity.
  - intros env. unfold Frozen.getTime. simpl. lia.
Defined.

(** The button shown after 500 ms is found, the default timeout being
    1500 ms. *)
Lemma query_fulfils_on_page :
  exists value,
    fst (Wait.query Page.getTime 501 Page.isVisible None (Page.start (Some 500)))
    = Some (Fulfilled value).
Proof.
  apply (query_fulfils_when_condition_holds_by_deadline Page.getTime
           Page.isVisible None 501%nat (Page.start (Some 500))
           (fun p => Page.shownAt p = Some 500) 500).
  - reflexivity.
  - intros element p Hshown. now rewrite isVisible_keeps_shownAt.
  - intros element p _. rewrite isVisible_takes_a_step. lia.
  - intros element p Hshown. rewrite isVisible_takes_a_step.
    now apply isVisible_when_shown.
  - unfold Page.getTime. simpl. unfold Page.byDefault. lia.
  - lia.
  - unfold Page.getTime. simpl Page.clock. lia.
Defined.

(** [isVisible] under another description runs the same. *)
Lemma query_depends_on_behaviour_only_on_page :
  snd (Wait.query Page.getTime 10 Page.isVisible (Some 250) (Page.start None))
  = snd (Wait.query Page.getTime 10 (lambda "can be seen" Page.isVisible)
           (Some 250) (Page.start None)) /\
  match fst (Wait.query Page.getTime 10 Page.isVisible (Some 250)
               (Page.start None)),
        fst (Wait.query Page.getTime 10 (lambda "can be seen" Page.isVisible)
               (Some 250) (Page.start None)) with
  | Some (Fulfilled value), Some (Fulfilled value') => value = value'
  | Some (Rejected err), Some (Rejected err') => class err = class err'
  | None, None => True
  | _, _ => False
  end.
Proof.
  apply (query_depends_on_behaviour_only Page.getTime Page.isVisible
           (lambda "can be seen" Page.isVisible) (Some 250) 10%nat
           (Page.start None)).
  intros element p. reflexivity.
Defined.

End PageRuns.

(** * What escapes the retry loop *)

Section Diagnostics.
Context {Env T : Type} `{ToString T} `{JsEngine}.
Variable getTime : Env -> Z.


End Diagnostics.

Section PageFailures.

#[local] Existing Instance Page.engine.

(** C4 fails on the code: a command whose promise is rejected with
    [undefined].  The attempt that ends at the deadline is retried; the
    next one ends after it, and reading [error.message] in the [catch]
    block throws: [query] and [command] reject with a [TypeError], not
    with a [TimeoutError]. *)
Theorem query_rejects_with_TypeError_on_undefined :
  fst (Wait.query Page.getTime 10 Page.rejectsUndefined (Some 250)
         (Page.start None))
  = Some (Rejected (Js.new TypeError
                      "Cannot read properties of undefined (reading 'message')")) /\
  fst (Wait.command Page.getTime 10 Page.rejectsUndefined (Some 250)
         (Page.start None))
  = Some (Rejected (Js.new TypeError
                      "Cannot read properties of undefined (reading 'message')")) /\
  Wait.trace (snd (Wait.query Page.getTime 10 Page.rejectsUndefined (Some 250)
                     (Page.start None)))
  = [EvNow 0; EvCall (@Rejected unit undefined); EvNow 250;
     EvCall (@Rejected unit undefined); EvNow 500].
Proof. repeat split. Qed.

Lemma isVisible_rejections_have_messages (element : Page.Element)
    (p : Page.Page) (error : Thrown) :
  fst (call Page.isVisible element p) = Rejected error ->
  readMessage error <> None.
Proof.
  destruct p as [clock [shown|] snapshots]; simpl.
  - destruct (shown <=? clock + Page.step); simpl; intros [= <-]; discriminate.
  - intros [= <-]. discriminate.
Qed.

(** X19, on the page: the conditions of the page reject with error
    objects only. *)
Lemma only_timeout_escapes_on_page :
  match fst (Wait.query Page.getTime 10 Page.isVisible (Some 250)
               (Page.start None)) with
  | Some (Rejected err) =>
      exists reason,
        err = Js.new TimeoutError
                (Wait.timeoutMessage 250 "button" Page.isVisible reason)
  | _ => True
  end /\
  match fst (Wait.command Page.getTime 10 Page.isVisible (Some 250)
               (Page.start None)) with
  | Some (Rejected err) =>
      class err = Some TimeoutError /\
      fst (Wait.query Page.getTime 10 Page.isVisible (Some 250)
             (Page.start None)) = Some (Rejected err)
  | Some (Fulfilled _) =>
      fst (Wait.query Page.getTime 10 Page.isVisible (Some 250)
             (Page.start None)) = Some (Fulfilled tt)
  | None =>
      fst (Wait.query Page.getTime 10 Page.isVisible (Some 250)
             (Page.start None)) = None
  end /\
  snd (Wait.command Page.getTime 10 Page.isVisible (Some 250) (Page.start None))
  = snd (Wait.query Page.getTime 10 Page.isVisible (Some 250) (Page.start None)).
Proof.
  apply (only_timeout_escapes_when_errors_have_messages Page.getTime
           Page.isVisible Page.isVisible (Some 250) 10%nat (Page.start None)).
  - exact isVisible_rejections_have_messages.
  - exact isVisible_rejections_have_messages.
Defined.


End PageFailures.
